(** * jobflow_remote.remote.host.remote : the SSH-backed host

    A shallow embedding of [RemoteHost] (src/jobflow_remote/remote/host/remote.py)
    and the properties of its command construction, its error contract and
    its equality.

    Python strings are [string], Python integers are [Z], [None]-able
    arguments are [option].  The class mutates one object, its
    [fabric.Connection]; the methods are therefore state transformers over a
    [World] that holds the instance, the transport calls issued so far and
    the records handed to the module logger. *)

From Stdlib Require Import String Ascii List ZArith Bool.
Import ListNotations.

Local Open Scope list_scope.
Local Open Scope string_scope.

(** ** Python string primitives used by the module *)
Module Py.

(** The character [chr(34)]. *)
Definition dquote : ascii := ascii_of_nat 34.
Definition squote : ascii := "'"%char.

(** [sep.join(l)]. *)
Fixpoint str_join (sep : string) (l : list string) : string :=
  match l with
  | [] => ""
  | x :: rest =>
      match rest with
      | [] => x
      | _ :: _ => x ++ sep ++ str_join sep rest
      end
  end.

(** [s.replace(old, new)] for a one-character [old]. *)
Fixpoint str_replace (old : ascii) (new : string) (s : string) : string :=
  match s with
  | "" => ""
  | String c s' =>
      if Ascii.eqb c old then new ++ str_replace old new s'
      else String c (str_replace old new s')
  end.

(** [all(p(c) for c in s)]. *)
Fixpoint str_all (p : ascii -> bool) (s : string) : bool :=
  match s with
  | "" => true
  | String c s' => p c && str_all p s'
  end.

(** [c in s]. *)
Fixpoint str_mem (c : ascii) (s : string) : bool :=
  match s with
  | "" => false
  | String d s' => Ascii.eqb d c || str_mem c s'
  end.

(** Truth value of a [str]: non-empty. *)
Definition str_truthy (s : string) : bool :=
  match s with "" => false | String _ _ => true end.

(** [a or b] on [int | None] operands: [a] unless it is falsy
    ([None] or [0]). *)
Definition int_or (a b : option Z) : option Z :=
  match a with
  | Some z => if Z.eqb z 0 then b else Some z
  | None => b
  end.

(** Truth value of an [int | None]. *)
Definition int_truthy (a : option Z) : bool :=
  match a with
  | Some z => negb (Z.eqb z 0)
  | None => false
  end.

End Py.

(** ** [shlex.quote] (Python standard library, Lib/shlex.py)

    [_find_unsafe = re.compile(r'[^\w@%+=:,./-]', re.ASCII).search];
    [quote(s)] is ['']  for the empty string, [s] itself when no character
    is unsafe, and otherwise [s] in single quotes with every single quote
    replaced by the five characters quote, double quote, quote, double
    quote, quote. *)
Module Shlex.
Import Py.

Definition between (lo hi c : ascii) : bool :=
  Ascii.leb lo c && Ascii.leb c hi.

(** [\w] under [re.ASCII]. *)
Definition word_char (c : ascii) : bool :=
  between "a" "z" c || between "A" "Z" c || between "0" "9" c
  || Ascii.eqb c "_".

Definition safe_char (c : ascii) : bool :=
  word_char c || str_mem c "@%+=:,./-".

Definition find_unsafe (s : string) : bool := negb (str_all safe_char s).

Definition quote_escape : string :=
  String squote (String dquote (String squote (String dquote (String squote "")))).

Definition quote (s : string) : string :=
  if negb (str_truthy s) then "''"
  else if negb (find_unsafe s) then s
  else String squote (str_replace squote quote_escape s ++ String squote "").

End Shlex.

(** ** Word splitting of the receiving shell

    The quoting rules of the POSIX shell command language (2.2 Quoting):
    a backslash preserves the next character, single quotes preserve every
    character up to the closing quote, double quotes preserve everything
    but dollar, backquote and backslash; unquoted blanks separate words.
    The lexer stays inside the fragment without operators and expansions:
    on an unquoted operator, expansion, pattern or comment character, on a
    line continuation and on an unterminated quotation it answers [None]. *)
Module Sh.
Import Py.

Inductive mode : Type := Bare | InSingle | InDouble | BareEsc | DoubleEsc.

Record lexer : Type := mkLexer
  { done : list string;       (* finished words, last one first *)
    cur : option string;      (* the word being read, if one was started *)
    lmode : mode }.

Definition backslash : ascii := "092"%char.
Definition newline : ascii := "010"%char.
Definition tab : ascii := "009"%char.

Definition blank (c : ascii) : bool := Ascii.eqb c " " || Ascii.eqb c tab.

Definition special (c : ascii) : bool :=
  str_mem c "|&;<>()$`*?[#~{}!" || Ascii.eqb c newline.

Definition dq_special (c : ascii) : bool := str_mem c "$`".

Definition dq_escapable (c : ascii) : bool :=
  str_mem c "$`" || Ascii.eqb c dquote || Ascii.eqb c backslash.

Definition word (o : option string) : string :=
  match o with Some w => w | None => "" end.

Definition push (o : option string) (c : ascii) : option string :=
  Some (word o ++ String c "").

Definition flush (l : lexer) : list string :=
  match cur l with Some w => w :: done l | None => done l end.

Definition step (l : lexer) (c : ascii) : option lexer :=
  match lmode l with
  | Bare =>
      if blank c then Some (mkLexer (flush l) None Bare)
      else if Ascii.eqb c squote
      then Some (mkLexer (done l) (Some (word (cur l))) InSingle)
      else if Ascii.eqb c dquote
      then Some (mkLexer (done l) (Some (word (cur l))) InDouble)
      else if Ascii.eqb c backslash
      then Some (mkLexer (done l) (Some (word (cur l))) BareEsc)
      else if special c then None
      else Some (mkLexer (done l) (push (cur l) c) Bare)
  | InSingle =>
      if Ascii.eqb c squote then Some (mkLexer (done l) (cur l) Bare)
      else Some (mkLexer (done l) (push (cur l) c) InSingle)
  | InDouble =>
      if Ascii.eqb c dquote then Some (mkLexer (done l) (cur l) Bare)
      else if Ascii.eqb c backslash
      then Some (mkLexer (done l) (cur l) DoubleEsc)
      else if dq_special c then None
      else Some (mkLexer (done l) (push (cur l) c) InDouble)
  | BareEsc =>
      if Ascii.eqb c newline then None
      else Some (mkLexer (done l) (push (cur l) c) Bare)
  | DoubleEsc =>
      if Ascii.eqb c newline then None
      else if dq_escapable c
      then Some (mkLexer (done l) (push (cur l) c) InDouble)
      else Some (mkLexer (done l) (push (push (cur l) backslash) c) InDouble)
  end.

Fixpoint run (l : lexer) (s : string) : option lexer :=
  match s with
  | "" => Some l
  | String c s' =>
      match step l c with
      | Some l' => run l' s'
      | None => None
      end
  end.

Definition finish (l : lexer) : option (list string) :=
  match lmode l with
  | Bare => Some (rev (flush l))
  | _ => None
  end.

Definition start : lexer := mkLexer [] None Bare.

(** The words a shell reads from the command line [s]. *)
Definition words (s : string) : option (list string) :=
  match run start s with
  | Some l => finish l
  | None => None
  end.

End Sh.

(** ** Results, exceptions and the transport *)

(** [invoke.runners.Result], as far as the module reads it. *)
Record Result : Type := mkResult
  { stdout : string;
    stderr : string;
    exited : Z }.

(** The instances of [Exception] a [fabric.Connection] method can raise.
    [UnexpectedExit] is what [run] raises for a nonzero exit status when it
    is called with [warn=False]. *)
Inductive exn : Type :=
| UnexpectedExit (r : Result)
| CommandTimedOut (timeout : Z)
| SSHException (msg : string)
| SocketError (msg : string).

Definition is_unexpected_exit (e : exn) : bool :=
  match e with UnexpectedExit _ => true | _ => false end.

Inductive outcome (A : Type) : Type :=
| Return (a : A)
| Raise (e : exn).
Arguments Return {A} a.
Arguments Raise {A} e.

(** The transport dependency: what the module asks of [fabric.Connection].
    [conn_run cmd cwd hide warn timeout] is [run(cmd, hide=, warn=, timeout=)]
    issued inside [with connection.cd(cwd)]; it answers [Return r] when the
    remote command ran to completion and [Raise e] otherwise.  The one law
    is the documented meaning of [warn]: with [warn=True] a nonzero exit
    status is reported in the result, never raised. *)
Class Transport (PyObj Conn : Type) : Type :=
  { Connection :
      string -> option string -> option Z -> option PyObj -> option PyObj ->
      option bool -> option Z -> option PyObj -> option bool -> Conn;
    conn_open : Conn -> outcome unit * Conn;
    conn_set_keepalive : Z -> Conn -> outcome unit * Conn;
    conn_run :
      string -> string -> bool -> bool -> option Z -> Conn ->
      outcome Result * Conn;
    conn_put_stream : string -> string -> Conn -> outcome unit * Conn;
    conn_put : string -> string -> Conn -> outcome unit * Conn;
    conn_get : string -> string -> Conn -> outcome unit * Conn;
    conn_close : Conn -> outcome unit * Conn;
    conn_is_connected : Conn -> bool;
    conn_run_warn :
      forall cmd cwd hide timeout c e c',
        conn_run cmd cwd hide true timeout c = (Raise e, c') ->
        is_unexpected_exit e = false }.

(** The calls made on the connection, in the order they were made. *)
Inductive Call : Type :=
| CallOpen
| CallSetKeepalive (seconds : Z)
| CallRun (command cwd : string) (hide warn : bool) (timeout : option Z)
| CallPutStream (content remote : string)
| CallPut (src dst : string)
| CallGet (src dst : string)
| CallClose.

Definition is_transfer (c : Call) : bool :=
  match c with
  | CallPutStream _ _ | CallPut _ _ | CallGet _ _ => true
  | _ => false
  end.

(** A record handed to [logger]. *)
Inductive Level : Type := WARNING.

Record LogRecord : Type := mkLogRecord
  { levelname : Level;
    msg : string;
    exc_info : option exn }.

(** The argument types of [execute]. *)
Inductive Command : Type :=
| CmdStr (s : string)
| CmdList (tokens : list string).

(** [workdir: str | Path | None]; a [Path] is given by its [str()]. *)
Inductive Workdir : Type :=
| WdNone
| WdStr (s : string)
| WdPath (p : string).

(** Values stored in the dictionary of [as_dict]. *)
Inductive value (PyObj : Type) : Type :=
| VNone
| VBool (b : bool)
| VInt (z : Z)
| VStr (s : string)
| VObj (o : PyObj).
Arguments VNone {PyObj}.
Arguments VBool {PyObj} b.
Arguments VInt {PyObj} z.
Arguments VStr {PyObj} s.
Arguments VObj {PyObj} o.

(** ** A simulated transport

    A connection to a host whose shell knows a handful of commands, used to
    run the model on concrete inputs.  It follows the documented behaviour of
    [fabric.Connection]: the constructor opens nothing, [run] opens the
    connection on demand, [close] does nothing when no connection is open,
    and [run] raises [UnexpectedExit] for a nonzero status only with
    [warn=False]. *)
Module Sim.

Record conn : Type := mkConn
  { connected : bool;
    reachable : bool;           (* the network lets us through *)
    teardown_fails : bool;      (* closing an open session fails *)
    readonly : bool;            (* the remote file system is read-only *)
    keepalive_interval : option Z }.

Definition fresh : conn := mkConn false true false false None.

Fixpoint digits (s : string) (acc : Z) : option Z :=
  match s with
  | "" => Some acc
  | String c s' =>
      if Shlex.between "0" "9" c
      then digits s' (10 * acc + (Z.of_N (N_of_ascii c) - 48))%Z
      else None
  end.

Definition int_of_str (s : string) : option Z :=
  if Py.str_truthy s then digits s 0%Z else None.

Definition ok (out : string) : outcome Result := Return (mkResult out "" 0).
Definition failed (err : string) (status : Z) : outcome Result :=
  Return (mkResult "" err status).

Definition builtin (argv : list string) (cwd : string) (timeout : option Z)
    (c : conn) : outcome Result :=
  match argv with
  | [] => ok ""
  | name :: args =>
      if String.eqb name "exit" then
        match args with
        | [n] =>
            match int_of_str n with
            | Some z => Return (mkResult "" "" (z mod 256))
            | None => failed "exit: numeric argument required" 2
            end
        | _ => ok ""
        end
      else if String.eqb name "echo" then
        ok (Py.str_join " " args ++ String Sh.newline "")
      else if String.eqb name "pwd" then
        ok (cwd ++ String Sh.newline "")
      else if String.eqb name "sleep" then
        match args with
        | [n] =>
            match int_of_str n, timeout with
            | Some z, Some t =>
                if (t <? z)%Z then Raise (CommandTimedOut t) else ok ""
            | _, _ => ok ""
            end
        | _ => failed "sleep: missing operand" 1
        end
      else if String.eqb name "mkdir" || String.eqb name "cp" then
        if readonly c then failed "Read-only file system" 1 else ok ""
      else failed "command not found" 127
  end.

Definition is_shell (s : string) : bool :=
  String.eqb s "sh" || String.eqb s "bash".

Definition run_inner (inner cwd : string) (timeout : option Z) (c : conn)
  : outcome Result :=
  match Sh.words inner with
  | Some argv => builtin argv cwd timeout c
  | None => failed "syntax error" 2
  end.

(** [sh -c inner] and [sh -l -c inner] run [inner]; any other line is run
    as it is. *)
Definition shell (line cwd : string) (timeout : option Z) (c : conn)
  : outcome Result :=
  match Sh.words line with
  | None => failed "syntax error" 2
  | Some argv =>
      match argv with
      | [name; flag; inner] =>
          if is_shell name && String.eqb flag "-c"
          then run_inner inner cwd timeout c
          else builtin argv cwd timeout c
      | [name; flag1; flag2; inner] =>
          if is_shell name && String.eqb flag1 "-l" && String.eqb flag2 "-c"
          then run_inner inner cwd timeout c
          else builtin argv cwd timeout c
      | _ => builtin argv cwd timeout c
      end
  end.

Definition with_connected (c : conn) (b : bool) : conn :=
  mkConn b (reachable c) (teardown_fails c) (readonly c)
    (keepalive_interval c).

Definition open (c : conn) : outcome unit * conn :=
  if reachable c then (Return tt, with_connected c true)
  else (Raise (SocketError "No route to host"), c).

Definition set_keepalive (seconds : Z) (c : conn) : outcome unit * conn :=
  if connected c
  then (Return tt,
        mkConn true (reachable c) (teardown_fails c) (readonly c)
          (Some seconds))
  else (Raise (SSHException "no transport"), c).

Definition run (cmd cwd : string) (hide warn : bool) (timeout : option Z)
    (c : conn) : outcome Result * conn :=
  if connected c || reachable c then
    let c' := with_connected c true in
    match shell cmd cwd timeout c' with
    | Return r =>
        if negb warn && negb (Z.eqb (exited r) 0)
        then (Raise (UnexpectedExit r), c')
        else (Return r, c')
    | Raise e => (Raise e, c')
    end
  else (Raise (SocketError "No route to host"), c).

Definition transfer (c : conn) : outcome unit * conn :=
  if connected c || reachable c then (Return tt, with_connected c true)
  else (Raise (SocketError "No route to host"), c).

Definition close (c : conn) : outcome unit * conn :=
  if connected c then
    if teardown_fails c then (Raise (SocketError "Broken pipe"), c)
    else (Return tt, with_connected c false)
  else (Return tt, c).

Lemma builtin_raise argv cwd timeout c e :
  builtin argv cwd timeout c = Raise e -> is_unexpected_exit e = false.
Proof.
  unfold builtin, ok, failed. intros H.
  repeat match type of H with
         | Return _ = Raise _ => discriminate H
         | Raise _ = Raise _ => injection H as <-; reflexivity
         | context [match ?x with _ => _ end] => destruct x
         end.
Qed.

Lemma shell_raise line cwd timeout c e :
  shell line cwd timeout c = Raise e -> is_unexpected_exit e = false.
Proof.
  unfold shell, run_inner, failed. intros H.
  repeat match type of H with
         | Return _ = Raise _ => discriminate H
         | builtin _ _ _ _ = Raise _ => exact (builtin_raise _ _ _ _ _ H)
         | context [match ?x with _ => _ end] => destruct x
         end.
Qed.

Lemma run_warn cmd cwd hide timeout c e c' :
  run cmd cwd hide true timeout c = (Raise e, c') ->
  is_unexpected_exit e = false.
Proof.
  unfold run. destruct (connected c || reachable c).
  - destruct (shell cmd cwd timeout (with_connected c true)) as [r|e0] eqn:E;
      cbn [negb andb]; intros H; [discriminate H|].
    injection H as <- _. exact (shell_raise _ _ _ _ _ E).
  - intros H. now injection H as <- _.
Qed.

#[global] Instance transport {PyObj : Type} : Transport PyObj conn :=
  {| Connection := fun _ _ _ _ _ _ _ _ _ => fresh;
     conn_open := open;
     conn_set_keepalive := set_keepalive;
     conn_run := run;
     conn_put_stream := fun _ _ => transfer;
     conn_put := fun _ _ => transfer;
     conn_get := fun _ _ => transfer;
     conn_close := close;
     conn_is_connected := connected;
     conn_run_warn := run_warn |}.

End Sim.

(** ** The class [RemoteHost] *)
Section Host.

Context {PyObj Conn : Type}.
Context {transport : Transport PyObj Conn}.

(** [==] between objects the model does not look into (a fabric [Config],
    a gateway, the [connect_kwargs] dictionary). *)
Variable obj_eq : PyObj -> PyObj -> bool.

(** The attributes set by [__init__]. *)
Record RemoteHost : Type := mkRemoteHost
  { host : string;
    user : option string;
    port : option Z;
    config : option PyObj;
    gateway : option PyObj;
    forward_agent : option bool;
    connect_timeout : option Z;
    connect_kwargs : option PyObj;
    inline_ssh_env : option bool;
    timeout_execute : option Z;
    keepalive : option Z;
    shell_cmd : option string;
    login_shell : bool;
    _connection : Conn }.

Definition __init__
    (host : string) (user : option string) (port : option Z)
    (config gateway : option PyObj) (forward_agent : option bool)
    (connect_timeout : option Z) (connect_kwargs : option PyObj)
    (inline_ssh_env : option bool) (timeout_execute keepalive : option Z)
    (shell_cmd : option string) (login_shell : bool) : RemoteHost :=
  mkRemoteHost host user port config gateway forward_agent connect_timeout
    connect_kwargs inline_ssh_env timeout_execute keepalive shell_cmd
    login_shell
    (Connection host user port config gateway forward_agent connect_timeout
       connect_kwargs inline_ssh_env).

(** The defaults of the signature: [keepalive=60], [shell_cmd="bash"],
    [login_shell=True], everything else [None]. *)
Definition default_host (host : string) : RemoteHost :=
  __init__ host None None None None None None None None None
    (Some 60%Z) (Some "bash") true.

(** The connection object is mutated in place; nothing else is. *)
Definition with_connection (self : RemoteHost) (c : Conn) : RemoteHost :=
  mkRemoteHost (host self) (user self) (port self) (config self)
    (gateway self) (forward_agent self) (connect_timeout self)
    (connect_kwargs self) (inline_ssh_env self) (timeout_execute self)
    (keepalive self) (shell_cmd self) (login_shell self) c.

(** *** Equality *)

Definition dict : Type := list (string * value PyObj).

(** Python [==] on the stored values; [True == 1] and [False == 0]. *)
Definition value_eq (a b : value PyObj) : bool :=
  match a, b with
  | VNone, VNone => true
  | VBool x, VBool y => Bool.eqb x y
  | VInt x, VInt y => Z.eqb x y
  | VBool x, VInt y | VInt y, VBool x => Z.eqb (if x then 1 else 0) y
  | VStr x, VStr y => String.eqb x y
  | VObj x, VObj y => obj_eq x y
  | _, _ => false
  end.

Fixpoint dict_get (k : string) (d : dict) : option (value PyObj) :=
  match d with
  | [] => None
  | (k', v) :: d' => if String.eqb k' k then Some v else dict_get k d'
  end.

(** [d1 == d2] for dictionaries: as many keys, and every key of [d1] is a
    key of [d2] with an equal value. *)
Definition dict_eq (d1 d2 : dict) : bool :=
  Nat.eqb (List.length d1) (List.length d2)
  && forallb (fun kv =>
                match dict_get (fst kv) d2 with
                | Some v => value_eq (snd kv) v
                | None => false
                end) d1.

Definition of_opt {A : Type} (f : A -> value PyObj) (o : option A)
  : value PyObj :=
  match o with Some a => f a | None => VNone end.

(** Modelled from the spec: [as_dict] is inherited through [BaseHost]
    (remote/host/base.py), which is not part of the sources at hand.  The
    spec identifies a host with its configuration, field by field, and
    keeps the live connection out of it; the dictionary therefore names
    the class and has one entry per constructor argument. *)
Definition as_dict (self : RemoteHost) : dict :=
  [ ("@module", VStr "jobflow_remote.remote.host.remote");
    ("@class", VStr "RemoteHost");
    ("host", VStr (host self));
    ("user", of_opt VStr (user self));
    ("port", of_opt VInt (port self));
    ("config", of_opt VObj (config self));
    ("gateway", of_opt VObj (gateway self));
    ("forward_agent", of_opt VBool (forward_agent self));
    ("connect_timeout", of_opt VInt (connect_timeout self));
    ("connect_kwargs", of_opt VObj (connect_kwargs self));
    ("inline_ssh_env", of_opt VBool (inline_ssh_env self));
    ("timeout_execute", of_opt VInt (timeout_execute self));
    ("keepalive", of_opt VInt (keepalive self));
    ("shell_cmd", of_opt VStr (shell_cmd self));
    ("login_shell", VBool (login_shell self)) ].

(** The right-hand operand of [==]: another [RemoteHost], or an object of
    some other class. *)
Inductive object : Type :=
| IsRemoteHost (h : RemoteHost)
| NotRemoteHost (d : dict).

Definition __eq__ (self : RemoteHost) (other : object) : bool :=
  match other with
  | NotRemoteHost _ => false
  | IsRemoteHost other => dict_eq (as_dict self) (as_dict other)
  end.

(** *** The methods, as state transformers *)

Record World : Type := mkWorld
  { this : RemoteHost;
    calls : list Call;
    records : list LogRecord }.

Definition M (A : Type) : Type := World -> outcome A * World.

Definition ret {A : Type} (a : A) : M A := fun w => (Return a, w).

Definition bind {A B : Type} (m : M A) (k : A -> M B) : M B :=
  fun w =>
    match m w with
    | (Return a, w') => k a w'
    | (Raise e, w') => (Raise e, w')
    end.

(** [try: body  except Exception: handler]. *)
Definition try_except {A : Type} (body : M A) (handler : exn -> M A) : M A :=
  fun w =>
    match body w with
    | (Return a, w') => (Return a, w')
    | (Raise e, w') => handler e w'
    end.

Definition self_ : M RemoteHost := fun w => (Return (this w), w).

(** The world after [call] left the connection in state [c']. *)
Definition called (w : World) (call : Call) (c' : Conn) : World :=
  mkWorld (with_connection (this w) c') (calls w ++ [call])%list (records w).

(** A call on [self.connection]: recorded, answered by the transport, and
    the connection left in the state the transport puts it in. *)
Definition on_connection {A : Type}
    (call : Call) (f : Conn -> outcome A * Conn) : M A :=
  fun w =>
    let (r, c') := f (_connection (this w)) in
    (r, called w call c').

(** The world after [logger.warning(message, exc_info=...)]. *)
Definition logged (w : World) (message : string) (exc : option exn) : World :=
  mkWorld (this w) (calls w)
          (records w ++ [mkLogRecord WARNING message exc])%list.

Definition logger_warning (message : string) (exc : option exn) : M unit :=
  fun w => (Return tt, logged w message exc).

Notation "x <- m ;; k" := (bind m (fun x => k))
  (at level 61, m at next level, right associativity).
Notation "m ;;; k" := (bind m (fun _ => k))
  (at level 61, right associativity).

(** [" ".join(command)] when a list was given. *)
Definition joined (command : Command) : string :=
  match command with
  | CmdList tokens => Py.str_join " " tokens
  | CmdStr s => s
  end.

Definition workdir_truthy (workdir : Workdir) : bool :=
  match workdir with
  | WdNone => false
  | WdStr s => Py.str_truthy s
  | WdPath _ => true
  end.

Definition workdir_str (workdir : Workdir) : string :=
  match workdir with
  | WdNone => "None"
  | WdStr s => s
  | WdPath p => p
  end.

(** [workdir] after lines 100-103. *)
Definition resolve_workdir (workdir : Workdir) : string :=
  if negb (workdir_truthy workdir) then "." else workdir_str workdir.

(** Lines 106-113: the command handed to [run]. *)
Definition remote_command (self : RemoteHost) (command : string) : string :=
  match shell_cmd self with
  | Some sc =>
      if Py.str_truthy sc then
        let shell_cmd := sc in
        let shell_cmd :=
          if login_shell self then shell_cmd ++ " -l " else shell_cmd in
        let shell_cmd := shell_cmd ++ " -c " in
        shell_cmd ++ Shlex.quote command
      else command
  | None => command
  end.

Definition execute
    (command : Command) (workdir : Workdir) (timeout : option Z)
  : M (string * string * Z) :=
  self <- self_ ;;
  let command := joined command in
  let workdir := resolve_workdir workdir in
  let timeout := Py.int_or timeout (timeout_execute self) in
  let remote_command := remote_command self command in
  out <- on_connection
           (CallRun remote_command workdir true true timeout)
           (conn_run remote_command workdir true true timeout) ;;
  ret (stdout out, stderr out, exited out).

(** [directory] stands for [str(directory)]. *)
Definition mkdir (directory : string) (recursive exist_ok : bool) : M bool :=
  let command := "mkdir " in
  let command := if recursive then command ++ "-p " else command in
  let command := command ++ directory in
  try_except
    (r <- execute (CmdStr command) WdNone None ;;
     let '(stdout, stderr, returncode) := r in
     (if negb (Z.eqb returncode 0)
      then logger_warning
             ("Error creating folder " ++ directory ++ ". stdout: "
              ++ stdout ++ ", stderr: " ++ stderr) None
      else ret tt) ;;;
     ret (Z.eqb returncode 0))
    (fun e =>
       logger_warning ("Error creating folder " ++ directory) (Some e) ;;;
       ret false).

Definition write_text_file (filepath content : string) : M unit :=
  on_connection (CallPutStream content filepath)
    (conn_put_stream content filepath).

Definition connect : M unit :=
  self <- self_ ;;
  on_connection CallOpen conn_open ;;;
  match keepalive self with
  | Some seconds =>
      if Py.int_truthy (Some seconds)
      then on_connection (CallSetKeepalive seconds)
             (conn_set_keepalive seconds)
      else ret tt
  | None => ret tt
  end.

Definition close : M bool :=
  try_except
    (on_connection CallClose conn_close ;;; ret true)
    (fun _ => ret false).

Definition is_connected : M bool :=
  self <- self_ ;; ret (conn_is_connected (_connection self)).

Definition put (src dst : string) : M unit :=
  on_connection (CallPut src dst) (conn_put src dst).

Definition get (src dst : string) : M unit :=
  on_connection (CallGet src dst) (conn_get src dst).

(** [src] and [dst] stand for [str(src)] and [str(dst)]. *)
Definition copy (src dst : string) : M unit :=
  let cmd := ["cp"; src; dst] in
  execute (CmdList cmd) WdNone None ;;;
  ret tt.

(** A host straight out of [__init__]: nothing called, nothing logged. *)
Definition new_world (self : RemoteHost) : World := mkWorld self [] [].

(** The command [mkdir] builds (lines 126-129) and the one [copy] builds
    (line 170). *)
Definition mkdir_line (directory : string) (recursive : bool) : Command :=
  CmdStr ("mkdir " ++ (if recursive then "-p " else "") ++ directory).

Definition cp_line (src dst : string) : Command := CmdList ["cp"; src; dst].

(** *** The specification's wording, for comparison *)

(** Section 4.2, steps 2 and 3: the shell invocation, [" -l "] if the
    login flag is set, [" -c "], and the command escaped as one argument;
    the command itself when no shell invocation is configured. *)
Definition spec_remote_command
    (shell : option string) (login : bool) (command : string) : string :=
  match shell with
  | None => command
  | Some "" => command
  | Some sc =>
      sc ++ (if login then " -l " else "") ++ " -c " ++ Shlex.quote command
  end.

Definition option_eq {A : Type} (eq : A -> A -> bool) (x y : option A)
  : bool :=
  match x, y with
  | None, None => true
  | Some a, Some b => eq a b
  | _, _ => false
  end.

(** Section 3: every configuration field compares equal. *)
Definition spec_same_configuration (a b : RemoteHost) : Prop :=
  host a = host b
  /\ user a = user b
  /\ port a = port b
  /\ option_eq obj_eq (config a) (config b) = true
  /\ option_eq obj_eq (gateway a) (gateway b) = true
  /\ forward_agent a = forward_agent b
  /\ connect_timeout a = connect_timeout b
  /\ option_eq obj_eq (connect_kwargs a) (connect_kwargs b) = true
  /\ inline_ssh_env a = inline_ssh_env b
  /\ timeout_execute a = timeout_execute b
  /\ keepalive a = keepalive b
  /\ shell_cmd a = shell_cmd b
  /\ login_shell a = login_shell b.

(** A non-empty string of characters [shlex.quote] leaves alone: a word
    that means itself to a shell. *)
Definition plain (s : string) : bool :=
  Py.str_truthy s && Py.str_all Shlex.safe_char s.

(** *** Sequences of method calls *)

(** One call of a method of the class, with its arguments. *)
Inductive Op : Type :=
| OpExecute (command : Command) (workdir : Workdir) (timeout : option Z)
| OpMkdir (directory : string) (recursive exist_ok : bool)
| OpWriteTextFile (filepath content : string)
| OpConnect
| OpClose
| OpIsConnected
| OpPut (src dst : string)
| OpGet (src dst : string)
| OpCopy (src dst : string).

(** The world the call leaves behind, whether it returned or raised. *)
Definition perform (op : Op) (w : World) : World :=
  match op with
  | OpExecute command workdir timeout =>
      snd (execute command workdir timeout w)
  | OpMkdir directory recursive exist_ok =>
      snd (mkdir directory recursive exist_ok w)
  | OpWriteTextFile filepath content => snd (write_text_file filepath content w)
  | OpConnect => snd (connect w)
  | OpClose => snd (close w)
  | OpIsConnected => snd (is_connected w)
  | OpPut src dst => snd (put src dst w)
  | OpGet src dst => snd (get src dst w)
  | OpCopy src dst => snd (copy src dst w)
  end.

Definition perform_all (ops : list Op) (w : World) : World :=
  fold_left (fun w op => perform op w) ops w.

Definition is_mkdir (op : Op) : bool :=
  match op with OpMkdir _ _ _ => true | _ => false end.

(** [w'] is [w] after some calls: the attributes set by [__init__] are the
    same, only the connection may be in another state, and the calls and
    the log have only grown. *)
Definition extends (w w' : World) : Prop :=
  (exists c', this w' = with_connection (this w) c')
  /\ (exists cs, calls w' = (calls w ++ cs)%list)
  /\ (exists rs, records w' = (records w ++ rs)%list).

Definition steady {A : Type} (m : M A) : Prop :=
  forall w, extends w (snd (m w)).

(** The calls a method is expected to make on the connection: a command
    run hidden and with [warn=True] for the three methods that run one, the
    transfer with the very arguments given for the three that move data,
    opening and keepalive for [connect], closing for [close]. *)
Definition expected_call (op : Op) (c : Call) : bool :=
  match op, c with
  | OpExecute _ _ _, CallRun _ _ hide warn _
  | OpMkdir _ _ _, CallRun _ _ hide warn _
  | OpCopy _ _, CallRun _ _ hide warn _ => hide && warn
  | OpWriteTextFile filepath content, CallPutStream content' remote =>
      String.eqb content content' && String.eqb filepath remote
  | OpPut src dst, CallPut src' dst' =>
      String.eqb src src' && String.eqb dst dst'
  | OpGet src dst, CallGet src' dst' =>
      String.eqb src src' && String.eqb dst dst'
  | OpConnect, CallOpen => true
  | OpConnect, CallSetKeepalive _ => true
  | OpClose, CallClose => true
  | _, _ => false
  end.

(** The state in which the transport leaves the connection when it is asked
    for [call]. *)
Definition replay (call : Call) (c : Conn) : Conn :=
  match call with
  | CallOpen => snd (conn_open c)
  | CallSetKeepalive seconds => snd (conn_set_keepalive seconds c)
  | CallRun command cwd hide warn timeout =>
      snd (conn_run command cwd hide warn timeout c)
  | CallPutStream content remote => snd (conn_put_stream content remote c)
  | CallPut src dst => snd (conn_put src dst c)
  | CallGet src dst => snd (conn_get src dst c)
  | CallClose => snd (conn_close c)
  end.

(** A list of tokens each of which is one or more plain words, one space
    apart. *)
Definition spaced_words (group : list string) : bool :=
  match group with
  | [] => false
  | _ :: _ => forallb plain group
  end.

(** ** Facts about the string primitives *)

Lemma str_app_nil_r (s : string) : s ++ "" = s.
Proof. induction s as [|c s IH]; simpl; [reflexivity | now rewrite IH]. Qed.

Lemma str_app_assoc (a b c : string) : (a ++ b) ++ c = a ++ (b ++ c).
Proof. induction a as [|x a IH]; simpl; [reflexivity | now rewrite IH]. Qed.

Lemma str_app_snoc (a : string) (c : ascii) (b : string) :
  (a ++ String c "") ++ b = a ++ String c b.
Proof. now rewrite str_app_assoc. Qed.

Lemma str_join_concat (sep : string) (l : list string) :
  Py.str_join sep l = String.concat sep l.
Proof.
  induction l as [|x l IH]; [reflexivity|].
  destruct l as [|y rest]; [reflexivity|].
  change (x ++ sep ++ Py.str_join sep (y :: rest)
          = x ++ sep ++ String.concat sep (y :: rest)).
  now rewrite IH.
Qed.

Lemma str_join_cons (sep x : string) (l : list string) :
  Py.str_join sep (x :: l)
  = x ++ (match l with [] => "" | _ :: _ => sep end) ++ Py.str_join sep l.
Proof.
  destruct l as [|y rest]; [|reflexivity].
  simpl. now rewrite str_app_nil_r.
Qed.

(** ** Facts about quoting and word splitting *)

Lemma sh_run_app (l : Sh.lexer) (a b : string) :
  Sh.run l (a ++ b) =
  match Sh.run l a with Some l' => Sh.run l' b | None => None end.
Proof.
  revert l; induction a as [|c a IH]; intros l; simpl; [reflexivity|].
  destruct (Sh.step l c); [apply IH | reflexivity].
Qed.

(** Inside single quotes the escaped text of [shlex.quote] reads back as
    the text itself. *)
Lemma sh_run_single_body (s : string) :
  forall d w,
    Sh.run (Sh.mkLexer d (Some w) Sh.InSingle)
        (Py.str_replace Py.squote Shlex.quote_escape s)
    = Some (Sh.mkLexer d (Some (w ++ s)) Sh.InSingle).
Proof.
  induction s as [|c s IH]; intros d w; simpl.
  - now rewrite str_app_nil_r.
  - destruct (Ascii.eqb_spec c Py.squote) as [->|Hne].
    + change (Shlex.quote_escape
              ++ Py.str_replace Py.squote Shlex.quote_escape s)
        with (String Py.squote (String Py.dquote (String Py.squote
               (String Py.dquote (String Py.squote
                  (Py.str_replace Py.squote Shlex.quote_escape s)))))).
      cbn. rewrite <- (str_app_snoc w Py.squote s). apply IH.
    + apply Ascii.eqb_neq in Hne. cbn [Sh.run Sh.step Sh.lmode].
      rewrite Hne. cbn [Sh.done Sh.cur Sh.push Sh.word].
      rewrite <- (str_app_snoc w c s). apply IH.
Qed.

(** A character [shlex.quote] leaves alone is an ordinary character of an
    unquoted word. *)
Lemma sh_step_safe (d : list string) (o : option string) (c : ascii) :
  Shlex.safe_char c = true ->
  Sh.step (Sh.mkLexer d o Sh.Bare) c
  = Some (Sh.mkLexer d (Sh.push o c) Sh.Bare).
Proof.
  destruct c as [[] [] [] [] [] [] [] []]; vm_compute;
    intros H; solve [reflexivity | discriminate H].
Qed.

Lemma sh_run_safe (s : string) :
  forall d o,
    Py.str_all Shlex.safe_char s = true ->
    Sh.run (Sh.mkLexer d o Sh.Bare) s
    = Some (Sh.mkLexer d (match s with
                          | "" => o
                          | String _ _ => Some (Sh.word o ++ s)
                          end) Sh.Bare).
Proof.
  induction s as [|c s IH]; intros d o H; simpl in *; [reflexivity|].
  apply andb_true_iff in H as [Hc Hs].
  rewrite (sh_step_safe d o c Hc), (IH _ _ Hs).
  destruct s; unfold Sh.push; simpl; [reflexivity|].
  now rewrite str_app_snoc.
Qed.

(** What [shlex.quote] returns is read back as one word, the original
    string, whatever was read before it. *)
Lemma sh_run_quote (s : string) (d : list string) :
  Sh.run (Sh.mkLexer d None Sh.Bare) (Shlex.quote s)
  = Some (Sh.mkLexer d (Some s) Sh.Bare).
Proof.
  unfold Shlex.quote, Shlex.find_unsafe.
  destruct s as [|c s]; [reflexivity|].
  cbn [Py.str_truthy negb].
  destruct (Py.str_all Shlex.safe_char (String c s)) eqn:Hsafe; cbn [negb].
  - now rewrite (sh_run_safe _ d None Hsafe).
  - change (Sh.run (Sh.mkLexer d None Sh.Bare)
              (String Py.squote
                 (Py.str_replace Py.squote Shlex.quote_escape (String c s)
                  ++ String Py.squote ""))
            = Some (Sh.mkLexer d (Some (String c s)) Sh.Bare)).
    cbn [Sh.run].
    change (Sh.step (Sh.mkLexer d None Sh.Bare) Py.squote)
      with (Some (Sh.mkLexer d (Some "") Sh.InSingle)).
    cbv iota beta. rewrite sh_run_app, sh_run_single_body. reflexivity.
Qed.

Lemma sh_words_quote (s : string) : Sh.words (Shlex.quote s) = Some [s].
Proof. unfold Sh.words, Sh.start. now rewrite sh_run_quote. Qed.

(** A line that reads as complete words leaves the lexer outside of any
    quotation. *)
Lemma sh_words_run (s : string) (ws : list string) :
  Sh.words s = Some ws ->
  exists d o,
    Sh.run Sh.start s = Some (Sh.mkLexer d o Sh.Bare)
    /\ rev (Sh.flush (Sh.mkLexer d o Sh.Bare)) = ws.
Proof.
  unfold Sh.words, Sh.finish. destruct (Sh.run Sh.start s) as [[d o m]|];
    [|discriminate].
  destruct m; cbn [Sh.lmode]; try discriminate.
  intros H; injection H as H. now exists d, o.
Qed.

(** Reading [sc -l  -c 'command'] (or without [-l]) after the words of the
    shell invocation [sc]. *)
Lemma sh_words_wrapped (sc command : string) (login : bool)
    (ws : list string) :
  Sh.words sc = Some ws ->
  Sh.words (((if login then sc ++ " -l " else sc) ++ " -c ")
            ++ Shlex.quote command)
  = Some (ws ++ (if login then ["-l"] else []) ++ ["-c"; command])%list.
Proof.
  intros H. destruct (sh_words_run _ _ H) as (d & o & Hrun & Hws).
  unfold Sh.words. destruct login.
  - rewrite !sh_run_app, Hrun.
    change (Sh.run (Sh.mkLexer d o Sh.Bare) " -l ")
      with (Some (Sh.mkLexer ("-l" :: Sh.flush (Sh.mkLexer d o Sh.Bare))
                    None Sh.Bare)).
    cbv iota beta.
    change (Sh.run (Sh.mkLexer ("-l" :: Sh.flush (Sh.mkLexer d o Sh.Bare))
                      None Sh.Bare) " -c ")
      with (Some (Sh.mkLexer
                    ("-c" :: "-l" :: Sh.flush (Sh.mkLexer d o Sh.Bare))
                    None Sh.Bare)).
    cbv iota beta. rewrite sh_run_quote.
    unfold Sh.finish; cbn [Sh.lmode Sh.flush Sh.cur Sh.done rev].
    cbn [Sh.flush Sh.cur Sh.done] in Hws. rewrite Hws.
    now rewrite <- !List.app_assoc.
  - rewrite !sh_run_app, Hrun.
    change (Sh.run (Sh.mkLexer d o Sh.Bare) " -c ")
      with (Some (Sh.mkLexer ("-c" :: Sh.flush (Sh.mkLexer d o Sh.Bare))
                    None Sh.Bare)).
    cbv iota beta. rewrite sh_run_quote.
    unfold Sh.finish; cbn [Sh.lmode Sh.flush Sh.cur Sh.done rev].
    cbn [Sh.flush Sh.cur Sh.done] in Hws. rewrite Hws.
    now rewrite <- !List.app_assoc.
Qed.

(** ** Running a command *)

(** The command, directory and time limit [execute] settles on. *)
Local Abbreviation cmd_of w command := (remote_command (this w) (joined command)).
Local Abbreviation timeout_of w timeout :=
  (Py.int_or timeout (timeout_execute (this w))).
Local Abbreviation run_call w command workdir timeout :=
  (CallRun (cmd_of w command) (resolve_workdir workdir) true true
     (timeout_of w timeout)).

Lemma execute_unfold (command : Command) (workdir : Workdir)
    (timeout : option Z) (w : World) :
  execute command workdir timeout w =
  match conn_run (cmd_of w command) (resolve_workdir workdir) true true
          (timeout_of w timeout) (_connection (this w)) with
  | (Return r, c') =>
      (Return (stdout r, stderr r, exited r),
       called w (run_call w command workdir timeout) c')
  | (Raise e, c') =>
      (Raise e, called w (run_call w command workdir timeout) c')
  end.
Proof.
  unfold execute, bind, self_, on_connection, ret. cbv beta iota zeta.
  destruct (conn_run _ _ _ _ _ _) as [[r|e] c']; reflexivity.
Qed.

Lemma remote_command_spec (self : RemoteHost) (command : string) :
  remote_command self command
  = spec_remote_command (shell_cmd self) (login_shell self) command.
Proof.
  unfold remote_command, spec_remote_command.
  destruct (shell_cmd self) as [[|c sc]|]; try reflexivity.
  cbn [Py.str_truthy]. cbv zeta.
  destruct (login_shell self); now rewrite !str_app_assoc.
Qed.

(** C1. Whatever command the transport runs to completion, [execute]
    returns its standard output, standard error and exit status as a
    triple, whatever the exit status; [execute] raises only what the
    transport raised when it could not run the command, and that is never
    an exit-status error. *)
Theorem execute_returns_what_ran :
  forall (command : Command) (workdir : Workdir) (timeout : option Z)
         (w : World) (o : outcome Result) (c' : Conn),
    conn_run (cmd_of w command) (resolve_workdir workdir) true true
      (timeout_of w timeout) (_connection (this w)) = (o, c') ->
    match o with
    | Return r =>
        fst (execute command workdir timeout w)
        = Return (stdout r, stderr r, exited r)
    | Raise e =>
        fst (execute command workdir timeout w) = Raise e
        /\ is_unexpected_exit e = false
    end.
Proof.
  intros command workdir timeout w o c' H.
  rewrite execute_unfold, H. destruct o as [r|e]; [reflexivity|].
  split; [reflexivity|]. exact (conn_run_warn _ _ _ _ _ _ _ H).
Qed.

(** C2. What [execute] asks of the transport is to run, in the working
    directory and within the time limit it settled on, hidden and with
    [warn=True], the shell invocation, then [" -l "] if the login flag is
    set, then [" -c "], then the command quoted by [shlex.quote], when a
    non-empty shell invocation is configured, and the joined command itself
    otherwise: the outcome of [execute] and the state it leaves are those
    the transport gives for that very line, and that line is the one
    recorded. *)
Theorem execute_dispatches_wrapped_command :
  forall (command : Command) (workdir : Workdir) (timeout : option Z)
         (w : World),
    let line :=
      spec_remote_command (shell_cmd (this w)) (login_shell (this w))
        (joined command) in
    let call :=
      CallRun line (resolve_workdir workdir) true true (timeout_of w timeout) in
    execute command workdir timeout w
    = match conn_run line (resolve_workdir workdir) true true
              (timeout_of w timeout) (_connection (this w)) with
      | (Return r, c') =>
          (Return (stdout r, stderr r, exited r), called w call c')
      | (Raise e, c') => (Raise e, called w call c')
      end
    /\ calls (snd (execute command workdir timeout w))
       = (calls w ++ [call])%list.
Proof.
  intros command workdir timeout w. cbv zeta.
  rewrite execute_unfold, <- remote_command_spec.
  split; [reflexivity|].
  destruct (conn_run _ _ _ _ _ _) as [[r|e] c']; reflexivity.
Qed.

(** C5. A list of tokens becomes one string with a single space between
    neighbours: each token stands in the result exactly as it was given,
    nothing is quoted, and [execute] carries on with that string. *)
Theorem execute_joins_tokens_unquoted :
  (forall tokens : list string,
      joined (CmdList tokens) = String.concat " " tokens)
  /\ (forall (before : list string) (token : string) (after : list string),
         joined (CmdList (before ++ token :: after))
         = joined (CmdList before)
           ++ (match before with [] => "" | _ :: _ => " " end)
           ++ token
           ++ (match after with [] => "" | _ :: _ => " " end)
           ++ joined (CmdList after))
  /\ (forall (tokens : list string) (workdir : Workdir) (timeout : option Z)
             (w : World),
         execute (CmdList tokens) workdir timeout w
         = execute (CmdStr (String.concat " " tokens)) workdir timeout w).
Proof.
  split; [|split].
  - intros tokens. apply str_join_concat.
  - intros before token after. cbn [joined].
    induction before as [|x before IH].
    + cbn [List.app Py.str_join]. apply str_join_cons.
    + change ((x :: before) ++ token :: after)%list
        with (x :: (before ++ token :: after))%list.
      rewrite str_join_cons, IH, (str_join_cons " " x before).
      destruct before as [|y before]; cbn [List.app];
        now rewrite ?str_app_assoc.
  - intros tokens workdir timeout w.
    rewrite !execute_unfold. cbn [joined]. now rewrite str_join_concat.
Qed.

(** C6. With a shell invocation that reads as the words [ws] and the login
    flag set, a command containing a single quote reaches the receiving
    shell as the words [ws], [-l], [-c] and the command itself, single
    quote included: quoting and reading back give the command unchanged. *)
Theorem execute_quoting_preserves_single_quote :
  forall (self : RemoteHost) (sc : string) (ws : list string)
         (command : string),
    shell_cmd self = Some sc ->
    Py.str_truthy sc = true ->
    login_shell self = true ->
    Sh.words sc = Some ws ->
    Py.str_mem Py.squote command = true ->
    Sh.words (remote_command self command)
    = Some (ws ++ ["-l"; "-c"; command])%list
    /\ Sh.words (Shlex.quote command) = Some [command].
Proof.
  intros self sc ws command Hsc Hne Hlogin Hws _.
  split; [|apply sh_words_quote].
  unfold remote_command. rewrite Hsc, Hne, Hlogin. cbv zeta.
  exact (sh_words_wrapped sc command true ws Hws).
Qed.

(** ** Creating a directory *)

Lemma mkdir_unfold (directory : string) (recursive exist_ok : bool)
    (w : World) :
  mkdir directory recursive exist_ok w =
  let call := run_call w (mkdir_line directory recursive) WdNone None in
  match conn_run (cmd_of w (mkdir_line directory recursive)) "." true true
          (timeout_of w None) (_connection (this w)) with
  | (Return r, c') =>
      if Z.eqb (exited r) 0 then (Return true, called w call c')
      else (Return false,
            logged (called w call c')
              ("Error creating folder " ++ directory ++ ". stdout: "
               ++ stdout r ++ ", stderr: " ++ stderr r) None)
  | (Raise e, c') =>
      (Return false,
       logged (called w call c') ("Error creating folder " ++ directory)
         (Some e))
  end.
Proof.
  unfold mkdir, try_except, bind. rewrite execute_unfold.
  replace (CmdStr ((if recursive then "mkdir " ++ "-p " else "mkdir ")
                   ++ directory))
    with (mkdir_line directory recursive)
    by (unfold mkdir_line; now destruct recursive).
  change (resolve_workdir WdNone) with ".". cbv zeta.
  destruct (conn_run _ _ _ _ _ _) as [[r|e] c']; [|reflexivity].
  unfold logger_warning, ret. cbv beta iota.
  destruct (Z.eqb (exited r) 0); reflexivity.
Qed.

(** C4. [mkdir] never raises: it returns a boolean, which is true exactly
    when the transport ran the [mkdir] command and the command exited with
    status 0; a nonzero status and an exception raised while running the
    command both end in [False] with one warning logged, and nothing is
    logged on success. *)
Theorem mkdir_absorbs_every_failure :
  forall (directory : string) (recursive exist_ok : bool) (w : World),
  exists b : bool,
    fst (mkdir directory recursive exist_ok w) = Return b
    /\ (b = true <->
        exists r c',
          conn_run (cmd_of w (mkdir_line directory recursive)) "." true true
            (timeout_of w None) (_connection (this w)) = (Return r, c')
          /\ exited r = 0%Z)
    /\ (b = false ->
        exists message exc,
          records (snd (mkdir directory recursive exist_ok w))
          = (records w ++ [mkLogRecord WARNING message exc])%list)
    /\ (b = true ->
        records (snd (mkdir directory recursive exist_ok w)) = records w).
Proof.
  intros directory recursive exist_ok w. rewrite mkdir_unfold. cbv zeta.
  destruct (conn_run _ _ _ _ _ _) as [[r|e] c'].
  - destruct (Z.eqb_spec (exited r) 0) as [Hz|Hnz].
    + exists true. cbn [fst snd]. repeat split; try discriminate.
      now exists r, c'.
    + exists false. cbn [fst snd]. repeat split; try discriminate.
      * intros (r' & c'' & Heq & Hz). injection Heq as -> _. contradiction.
      * intros _. now eexists _, _.
  - exists false. cbn [fst snd]. repeat split; try discriminate.
    + intros (r' & c'' & Heq & _). discriminate Heq.
    + intros _. now eexists _, _.
Qed.

(** C10. [exist_ok] changes nothing: with either value [mkdir] issues the
    same command, built from [recursive] and the directory alone, and ends
    with the same answer in the same state. *)
Theorem mkdir_ignores_exist_ok :
  forall (directory : string) (recursive : bool) (w : World),
    mkdir directory recursive true w = mkdir directory recursive false w
    /\ (forall exist_ok : bool,
           calls (snd (mkdir directory recursive exist_ok w))
           = (calls w
              ++ [CallRun
                    (remote_command (this w)
                       ("mkdir " ++ (if recursive then "-p " else "")
                        ++ directory))
                    "." true true (timeout_of w None)])%list).
Proof.
  intros directory recursive w. split; [reflexivity|].
  intros exist_ok. rewrite mkdir_unfold. cbv zeta.
  destruct (conn_run _ _ _ _ _ _) as [[r|e] c']; [|reflexivity].
  destruct (Z.eqb (exited r) 0); reflexivity.
Qed.

(** ** Closing the connection *)

Lemma close_unfold (w : World) :
  close w =
  match conn_close (_connection (this w)) with
  | (Return _, c') => (Return true, called w CallClose c')
  | (Raise _, c') => (Return false, called w CallClose c')
  end.
Proof.
  unfold close, try_except, bind, on_connection, ret.
  destruct (conn_close _) as [[u|e] c']; reflexivity.
Qed.

(** C3, as the code has it. [close] never raises; it returns [False]
    exactly when the teardown of the transport raises and [True] otherwise,
    so on a connection that was never opened it returns whatever the
    teardown of the transport amounts to there. *)
Theorem close_reports_teardown :
  forall w : World,
  exists b : bool,
    fst (close w) = Return b
    /\ (b = false <->
        exists e, fst (conn_close (_connection (this w))) = Raise e)
    /\ (b = true <->
        fst (conn_close (_connection (this w))) = Return tt).
Proof.
  intros w. rewrite close_unfold.
  destruct (conn_close _) as [[[]|e] c']; cbn [fst].
  - exists true. repeat split; try discriminate.
    intros (e & He); discriminate He.
  - exists false. repeat split; try discriminate. now exists e.
Qed.

(** ** Copying on the host *)

Lemma copy_unfold (src dst : string) (w : World) :
  copy src dst w =
  match execute (cp_line src dst) WdNone None w with
  | (Return _, w') => (Return tt, w')
  | (Raise e, w') => (Raise e, w')
  end.
Proof. reflexivity. Qed.

Lemma filter_snoc_false {A : Type} (p : A -> bool) (l : list A) (x : A) :
  p x = false -> filter p (l ++ [x])%list = filter p l.
Proof.
  intros H. rewrite filter_app. cbn [filter]. rewrite H.
  apply List.app_nil_r.
Qed.

(** C8. [copy] issues one call on the connection, the [run] of the command
    [execute] makes of the list [cp], source, destination; it makes no
    [put] and no [get]. *)
Theorem copy_runs_remote_cp :
  forall (src dst : string) (w : World),
    snd (copy src dst w) = snd (execute (CmdList ["cp"; src; dst]) WdNone None w)
    /\ calls (snd (copy src dst w))
       = (calls w
          ++ [CallRun (remote_command (this w) ("cp " ++ src ++ " " ++ dst))
                "." true true (timeout_of w None)])%list
    /\ filter is_transfer (calls (snd (copy src dst w)))
       = filter is_transfer (calls w).
Proof.
  intros src dst w. rewrite copy_unfold. unfold cp_line.
  rewrite execute_unfold.
  change (joined (CmdList ["cp"; src; dst])) with ("cp " ++ src ++ " " ++ dst).
  change (resolve_workdir WdNone) with ".".
  destruct (conn_run _ _ _ _ _ _) as [[r|e] c']; cbn [snd called calls];
    (repeat split; try reflexivity; now apply filter_snoc_false).
Qed.

(** C9. When the remote [cp] runs, [copy] returns [None] whatever its exit
    status and output were, and logs nothing: neither the value returned nor
    the state left behind depends on the result of the command. *)
Theorem copy_discards_result :
  forall (src dst : string) (w : World) (r : Result) (c' : Conn),
    conn_run (cmd_of w (cp_line src dst)) "." true true (timeout_of w None)
      (_connection (this w)) = (Return r, c') ->
    copy src dst w
    = (Return tt,
       called w (run_call w (cp_line src dst) WdNone None) c')
    /\ records (snd (copy src dst w)) = records w.
Proof.
  intros src dst w r c' H. rewrite copy_unfold, execute_unfold.
  change (resolve_workdir WdNone) with ".". rewrite H. now split.
Qed.

(** ** Equality *)

Lemma value_eq_str (x y : string) :
  value_eq (VStr x) (VStr y) = true <-> x = y.
Proof. apply String.eqb_eq. Qed.

Lemma value_eq_bool (x y : bool) :
  value_eq (VBool x) (VBool y) = true <-> x = y.
Proof. apply Bool.eqb_true_iff. Qed.

Lemma value_eq_opt_str (x y : option string) :
  value_eq (of_opt VStr x) (of_opt VStr y) = true <-> x = y.
Proof.
  destruct x as [x|], y as [y|]; cbn; try (split; congruence).
  rewrite String.eqb_eq. split; congruence.
Qed.

Lemma value_eq_opt_int (x y : option Z) :
  value_eq (of_opt VInt x) (of_opt VInt y) = true <-> x = y.
Proof.
  destruct x as [x|], y as [y|]; cbn; try (split; congruence).
  rewrite Z.eqb_eq. split; congruence.
Qed.

Lemma value_eq_opt_bool (x y : option bool) :
  value_eq (of_opt VBool x) (of_opt VBool y) = true <-> x = y.
Proof.
  destruct x as [x|], y as [y|]; cbn; try (split; congruence).
  rewrite Bool.eqb_true_iff. split; congruence.
Qed.

Lemma value_eq_opt_obj (x y : option PyObj) :
  value_eq (of_opt VObj x) (of_opt VObj y) = option_eq obj_eq x y.
Proof. destruct x, y; reflexivity. Qed.

Lemma eq_unfold (a b : RemoteHost) :
  __eq__ a (IsRemoteHost b) =
  (value_eq (VStr (host a)) (VStr (host b))
   && (value_eq (of_opt VStr (user a)) (of_opt VStr (user b))
   && (value_eq (of_opt VInt (port a)) (of_opt VInt (port b))
   && (value_eq (of_opt VObj (config a)) (of_opt VObj (config b))
   && (value_eq (of_opt VObj (gateway a)) (of_opt VObj (gateway b))
   && (value_eq (of_opt VBool (forward_agent a))
         (of_opt VBool (forward_agent b))
   && (value_eq (of_opt VInt (connect_timeout a))
         (of_opt VInt (connect_timeout b))
   && (value_eq (of_opt VObj (connect_kwargs a))
         (of_opt VObj (connect_kwargs b))
   && (value_eq (of_opt VBool (inline_ssh_env a))
         (of_opt VBool (inline_ssh_env b))
   && (value_eq (of_opt VInt (timeout_execute a))
         (of_opt VInt (timeout_execute b))
   && (value_eq (of_opt VInt (keepalive a)) (of_opt VInt (keepalive b))
   && (value_eq (of_opt VStr (shell_cmd a)) (of_opt VStr (shell_cmd b))
   && (value_eq (VBool (login_shell a)) (VBool (login_shell b))
   && true))))))))))))).
Proof. reflexivity. Qed.

(** C7. Two hosts are equal exactly when every configuration field of the
    one compares equal to the same field of the other; the connection the
    hosts hold does not enter the comparison. *)
Theorem eq_iff_same_configuration :
  forall a b : RemoteHost,
    (__eq__ a (IsRemoteHost b) = true <-> spec_same_configuration a b)
    /\ (forall c1 c2 : Conn,
           __eq__ (with_connection a c1) (IsRemoteHost (with_connection b c2))
           = __eq__ a (IsRemoteHost b)).
Proof.
  intros a b. split; [|reflexivity].
  rewrite eq_unfold. unfold spec_same_configuration.
  rewrite !andb_true_iff, !value_eq_opt_obj, value_eq_str, value_eq_bool,
    !value_eq_opt_str, !value_eq_opt_int, !value_eq_opt_bool.
  tauto.
Qed.

(** ** What a sequence of calls keeps *)

Lemma with_connection_id (self : RemoteHost) :
  with_connection self (_connection self) = self.
Proof. now destruct self. Qed.

Lemma extends_refl (w : World) : extends w w.
Proof.
  repeat split.
  - exists (_connection (this w)). now rewrite with_connection_id.
  - exists []. now rewrite List.app_nil_r.
  - exists []. now rewrite List.app_nil_r.
Qed.

Lemma extends_trans (w1 w2 w3 : World) :
  extends w1 w2 -> extends w2 w3 -> extends w1 w3.
Proof.
  intros ((c2 & H2) & (cs2 & C2) & (rs2 & R2))
         ((c3 & H3) & (cs3 & C3) & (rs3 & R3)).
  repeat split.
  - exists c3. rewrite H3, H2. reflexivity.
  - exists (cs2 ++ cs3)%list. now rewrite C3, C2, List.app_assoc.
  - exists (rs2 ++ rs3)%list. now rewrite R3, R2, List.app_assoc.
Qed.

Lemma extends_called (w : World) (call : Call) (c' : Conn) :
  extends w (called w call c').
Proof.
  repeat split; cbn.
  - now exists c'.
  - now exists [call].
  - exists []. now rewrite List.app_nil_r.
Qed.

Lemma extends_logged (w : World) (message : string) (exc : option exn) :
  extends w (logged w message exc).
Proof.
  repeat split; cbn.
  - exists (_connection (this w)). now rewrite with_connection_id.
  - exists []. now rewrite List.app_nil_r.
  - now eexists.
Qed.

Lemma steady_ret {A : Type} (a : A) : steady (ret a).
Proof. intros w. apply extends_refl. Qed.

Lemma steady_bind {A B : Type} (m : M A) (k : A -> M B) :
  steady m -> (forall a, steady (k a)) -> steady (bind m k).
Proof.
  intros Hm Hk w. unfold bind. specialize (Hm w).
  destruct (m w) as [[a|e] w1]; cbn [snd] in *; [|exact Hm].
  exact (extends_trans _ _ _ Hm (Hk a w1)).
Qed.

Lemma steady_try_except {A : Type} (body : M A) (handler : exn -> M A) :
  steady body -> (forall e, steady (handler e)) ->
  steady (try_except body handler).
Proof.
  intros Hb Hh w. unfold try_except. specialize (Hb w).
  destruct (body w) as [[a|e] w1]; cbn [snd] in *; [exact Hb|].
  exact (extends_trans _ _ _ Hb (Hh e w1)).
Qed.

Lemma steady_on_connection {A : Type} (call : Call)
    (f : Conn -> outcome A * Conn) :
  steady (on_connection call f).
Proof.
  intros w. unfold on_connection.
  destruct (f _) as [r c']. apply extends_called.
Qed.

Lemma steady_logger_warning (message : string) (exc : option exn) :
  steady (logger_warning message exc).
Proof. intros w. apply extends_logged. Qed.

Lemma steady_execute (command : Command) (workdir : Workdir)
    (timeout : option Z) :
  steady (execute command workdir timeout).
Proof.
  intros w. rewrite execute_unfold.
  destruct (conn_run _ _ _ _ _ _) as [[r|e] c']; apply extends_called.
Qed.

Lemma steady_mkdir (directory : string) (recursive exist_ok : bool) :
  steady (mkdir directory recursive exist_ok).
Proof.
  unfold mkdir. apply steady_try_except.
  - apply steady_bind; [apply steady_execute|].
    intros [[out err] code]. apply steady_bind; [|intros; apply steady_ret].
    destruct (negb _); [apply steady_logger_warning | apply steady_ret].
  - intros e. apply steady_bind; [apply steady_logger_warning|].
    intros; apply steady_ret.
Qed.

Lemma steady_connect : steady connect.
Proof.
  intros w. unfold connect, bind, self_.
  pose proof (steady_on_connection CallOpen conn_open w) as Ho.
  destruct (on_connection CallOpen conn_open w) as [[u|e] w1];
    cbn [snd] in *; [|exact Ho].
  destruct (keepalive (this w)) as [seconds|]; [|exact Ho].
  destruct (Py.int_truthy (Some seconds)); [|exact Ho].
  exact (extends_trans _ _ _ Ho (steady_on_connection _ _ w1)).
Qed.

Lemma steady_close : steady close.
Proof.
  unfold close. apply steady_try_except.
  - apply steady_bind; [apply steady_on_connection | intros; apply steady_ret].
  - intros; apply steady_ret.
Qed.

Lemma steady_copy (src dst : string) : steady (copy src dst).
Proof.
  unfold copy. apply steady_bind; [apply steady_execute|].
  intros; apply steady_ret.
Qed.

Lemma perform_extends (op : Op) (w : World) : extends w (perform op w).
Proof.
  destruct op; cbn [perform].
  - apply steady_execute.
  - apply steady_mkdir.
  - apply (steady_on_connection (A := unit)).
  - apply steady_connect.
  - apply steady_close.
  - apply extends_refl.
  - apply (steady_on_connection (A := unit)).
  - apply (steady_on_connection (A := unit)).
  - apply steady_copy.
Qed.

Lemma eq_with_connection_l (a : RemoteHost) (c : Conn) (other : object) :
  __eq__ (with_connection a c) other = __eq__ a other.
Proof. destruct other; reflexivity. Qed.

Lemma eq_with_connection_r (h a : RemoteHost) (c : Conn) :
  __eq__ h (IsRemoteHost (with_connection a c)) = __eq__ h (IsRemoteHost a).
Proof. reflexivity. Qed.

(** X1. Whatever methods are called on a host, in whatever order and
    whether they return or raise, the attributes set by [__init__] stay as
    they were: only the state of the connection changes, and the calls made
    and the records logged so far are never lost. *)
Theorem calls_keep_configuration :
  forall (ops : list Op) (w : World),
    (exists c',
        this (perform_all ops w) = with_connection (this w) c')
    /\ (exists cs, calls (perform_all ops w) = (calls w ++ cs)%list)
    /\ (exists rs, records (perform_all ops w) = (records w ++ rs)%list).
Proof.
  intros ops w. change (extends w (perform_all ops w)).
  revert w. induction ops as [|op ops IH]; intros w.
  - apply extends_refl.
  - cbn [perform_all fold_left].
    exact (extends_trans _ _ _ (perform_extends op w) (IH (perform op w))).
Qed.

(** X2. Calling methods on a host never changes what it is equal to:
    after any sequence of calls the host compares to every object, on
    either side of [==], as it did before. *)
Theorem calls_keep_equality :
  forall (ops : list Op) (w : World),
    (forall other : object,
        __eq__ (this (perform_all ops w)) other = __eq__ (this w) other)
    /\ (forall h : RemoteHost,
           __eq__ h (IsRemoteHost (this (perform_all ops w)))
           = __eq__ h (IsRemoteHost (this w))).
Proof.
  intros ops. induction ops as [|op ops IH]; intros w; [now split|].
  cbn [perform_all fold_left]. destruct (IH (perform op w)) as [IHl IHr].
  destruct (perform_extends op w) as ((c' & Hc) & _).
  split.
  - intros other. fold (perform_all ops (perform op w)).
    now rewrite IHl, Hc, eq_with_connection_l.
  - intros h. fold (perform_all ops (perform op w)).
    now rewrite IHr, Hc, eq_with_connection_r.
Qed.

Lemma perform_records (op : Op) (w : World) :
  is_mkdir op = false -> records (perform op w) = records w.
Proof.
  destruct op; cbn [is_mkdir perform]; intros H; try discriminate H.
  - rewrite execute_unfold.
    destruct (conn_run _ _ _ _ _ _) as [[r|e] c']; reflexivity.
  - unfold write_text_file, on_connection.
    destruct (conn_put_stream _ _ _) as [r c']; reflexivity.
  - unfold connect, bind, self_, on_connection, ret.
    destruct (conn_open _) as [[u|e] c']; [|reflexivity].
    destruct (keepalive (this w)) as [seconds|]; [|reflexivity].
    destruct (Py.int_truthy (Some seconds)); [|reflexivity].
    cbn. destruct (conn_set_keepalive _ _) as [r c'']; reflexivity.
  - rewrite close_unfold.
    destruct (conn_close _) as [[u|e] c']; reflexivity.
  - reflexivity.
  - unfold put, on_connection.
    destruct (conn_put _ _ _) as [r c']; reflexivity.
  - unfold get, on_connection.
    destruct (conn_get _ _ _) as [r c']; reflexivity.
  - rewrite copy_unfold, execute_unfold.
    destruct (conn_run _ _ _ _ _ _) as [[r|e] c']; reflexivity.
Qed.

(** X3. Only [mkdir] writes to the log: a sequence of calls without
    [mkdir] leaves the log as it was, whatever fails on the way; in
    particular the exception [close] swallows is recorded nowhere. *)
Theorem only_mkdir_logs :
  forall (ops : list Op) (w : World),
    existsb is_mkdir ops = false ->
    records (perform_all ops w) = records w.
Proof.
  intros ops. induction ops as [|op ops IH]; intros w H; [reflexivity|].
  cbn [existsb] in H. apply orb_false_iff in H as [Hop Hops].
  cbn [perform_all fold_left]. fold (perform_all ops (perform op w)).
  now rewrite (IH _ Hops), (perform_records op w Hop).
Qed.

(** ** Defaults and edge cases of [execute] *)

(** X4. [execute] has the transport run the command in [.] when the
    working directory is [None] or the empty string and in [str(workdir)]
    otherwise, within the time limit given unless that is [None] or [0], in
    which case within the [timeout_execute] of the host, whatever that is.
    A call with the time limit [0] is therefore the same as a call with
    none, and a call with the empty working directory the same as a call
    without one. *)
Theorem execute_defaults :
  forall (command : Command) (workdir : Workdir) (timeout : option Z)
         (w : World) (o : outcome Result) (c' : Conn),
    let cwd :=
      match workdir with
      | WdNone | WdStr "" => "."
      | WdStr s => s
      | WdPath p => p
      end in
    let limit :=
      match timeout with
      | None | Some 0%Z => timeout_execute (this w)
      | Some t => Some t
      end in
    conn_run (remote_command (this w) (joined command)) cwd true true limit
      (_connection (this w)) = (o, c') ->
    execute command workdir timeout w
    = (match o with
       | Return r => Return (stdout r, stderr r, exited r)
       | Raise e => Raise e
       end,
       called w
         (CallRun (remote_command (this w) (joined command)) cwd true true
            limit) c')
    /\ execute command workdir (Some 0%Z) w = execute command workdir None w
    /\ execute command (WdStr "") timeout w = execute command WdNone timeout w.
Proof.
  intros command workdir timeout w o c'. cbv zeta. intros H.
  split; [|split; reflexivity].
  rewrite execute_unfold.
  replace (resolve_workdir workdir)
    with (match workdir with
          | WdNone | WdStr "" => "."
          | WdStr s => s
          | WdPath p => p
          end)
    by (now destruct workdir as [|[|c s]|p]).
  replace (Py.int_or timeout (timeout_execute (this w)))
    with (match timeout with
          | None | Some 0%Z => timeout_execute (this w)
          | Some t => Some t
          end)
    by (now destruct timeout as [[|p|p]|]).
  rewrite H. now destruct o.
Qed.

(** ** Connecting *)

(** X5. [connect] opens the connection and then, if [keepalive] is neither
    [None] nor [0], sets that interval on the opened connection.  When
    opening fails the exception is raised as it is and no interval is set;
    when setting the interval fails the exception is raised and the
    connection stays open. *)
Theorem connect_opens_then_sets_keepalive :
  forall (w : World) (o : outcome unit) (c' : Conn),
    conn_open (_connection (this w)) = (o, c') ->
    match o, keepalive (this w) with
    | Raise e, _ => connect w = (Raise e, called w CallOpen c')
    | Return _, None | Return _, Some 0%Z =>
        connect w = (Return tt, called w CallOpen c')
    | Return _, Some seconds =>
        connect w
        = (fst (conn_set_keepalive seconds c'),
           called (called w CallOpen c') (CallSetKeepalive seconds)
             (snd (conn_set_keepalive seconds c')))
    end.
Proof.
  intros w o c' H.
  unfold connect, bind, self_, on_connection, ret. rewrite H.
  destruct o as [[]|e]; [|reflexivity].
  destruct (keepalive (this w)) as [[|p|p]|]; try reflexivity;
    cbn; destruct (conn_set_keepalive _ c') as [r c'']; reflexivity.
Qed.

(** ** Copying *)

(** X6. [copy] does not absorb a failure to run the command: what the
    transport raises, [copy] raises, and nothing is logged. *)
Theorem copy_raises_what_run_raises :
  forall (src dst : string) (w : World) (e : exn) (c' : Conn),
    conn_run (cmd_of w (cp_line src dst)) "." true true (timeout_of w None)
      (_connection (this w)) = (Raise e, c') ->
    copy src dst w
    = (Raise e, called w (run_call w (cp_line src dst) WdNone None) c')
    /\ records (snd (copy src dst w)) = records w.
Proof.
  intros src dst w e c' H. rewrite copy_unfold, execute_unfold.
  change (resolve_workdir WdNone) with ".". rewrite H. now split.
Qed.

(** ** The dispatched line *)

Lemma str_app_inv_head (p a b : string) : p ++ a = p ++ b -> a = b.
Proof.
  induction p as [|c p IH]; cbn; intros H; [exact H|].
  injection H as H. exact (IH H).
Qed.

Lemma quote_injective (a b : string) :
  Shlex.quote a = Shlex.quote b -> a = b.
Proof.
  intros H. pose proof (sh_words_quote a) as Ha.
  rewrite H, sh_words_quote in Ha. now injection Ha as ->.
Qed.

(** X7. Two different commands are never dispatched as the same line,
    with or without a shell invocation and with or without the login
    flag. *)
Theorem remote_command_injective :
  forall (self : RemoteHost) (a b : string),
    a <> b -> remote_command self a <> remote_command self b.
Proof.
  intros self a b Hab H. apply Hab. revert H. unfold remote_command.
  destruct (shell_cmd self) as [sc|]; [|exact (fun H => H)].
  destruct (Py.str_truthy sc); [|exact (fun H => H)].
  cbv zeta. intros H. apply quote_injective.
  exact (str_app_inv_head _ _ _ H).
Qed.

(** X8. Whatever the command contains, and whether the login flag is set
    or not, a shell invocation that reads as the words [ws] receives the
    command as one argument: the line reads as [ws], [-l] if the flag is
    set, [-c], and the command. *)
Theorem remote_command_read_back :
  forall (self : RemoteHost) (sc : string) (ws : list string)
         (command : string),
    shell_cmd self = Some sc ->
    Py.str_truthy sc = true ->
    Sh.words sc = Some ws ->
    Sh.words (remote_command self command)
    = Some (ws ++ (if login_shell self then ["-l"] else [])
               ++ ["-c"; command])%list.
Proof.
  intros self sc ws command Hsc Hne Hws.
  unfold remote_command. rewrite Hsc, Hne. cbv zeta.
  exact (sh_words_wrapped sc command (login_shell self) ws Hws).
Qed.

(** ** Paths are not quoted *)

Lemma sh_run_plain (s : string) (d : list string) :
  plain s = true ->
  Sh.run (Sh.mkLexer d None Sh.Bare) s = Some (Sh.mkLexer d (Some s) Sh.Bare).
Proof.
  unfold plain. intros H. apply andb_true_iff in H as [Hne Hsafe].
  rewrite (sh_run_safe s d None Hsafe). now destruct s.
Qed.

Lemma sh_run_join_plain (l : list string) :
  forall (x : string) (d : list string),
    forallb plain (x :: l) = true ->
    exists w,
      Sh.run (Sh.mkLexer d None Sh.Bare) (Py.str_join " " (x :: l))
      = Some (Sh.mkLexer (List.tl (rev (x :: l) ++ d)) (Some w) Sh.Bare)
      /\ List.hd w (rev (x :: l) ++ d)%list = w
      /\ (rev (x :: l) ++ d)%list <> [].
Proof.
  induction l as [|y l IH]; intros x d H.
  - cbn [forallb] in H. rewrite andb_true_r in H.
    exists x. cbn. now rewrite (sh_run_plain x d H).
  - change (forallb plain (x :: y :: l))
      with (plain x && forallb plain (y :: l)) in H.
    apply andb_true_iff in H as [Hx Hl].
    destruct (IH y (x :: d) Hl) as (w & Hrun & Hhd & Hnil).
    exists w.
    change (Py.str_join " " (x :: y :: l))
      with (x ++ " " ++ Py.str_join " " (y :: l)).
    rewrite sh_run_app, (sh_run_plain x d Hx).
    change (" " ++ Py.str_join " " (y :: l))
      with (String " " (Py.str_join " " (y :: l))).
    cbn [Sh.run]. change (Sh.step (Sh.mkLexer d (Some x) Sh.Bare) " ")
      with (Some (Sh.mkLexer (x :: d) None Sh.Bare)).
    cbv iota beta. rewrite Hrun.
    replace (rev (x :: y :: l) ++ d)%list with (rev (y :: l) ++ x :: d)%list
      by (cbn [rev]; now rewrite <- !List.app_assoc).
    now repeat split.
Qed.

(** Words made of characters [shlex.quote] leaves alone, one space apart,
    are read back as those words. *)
Lemma sh_words_join_plain (l : list string) :
  forallb plain l = true -> Sh.words (Py.str_join " " l) = Some l.
Proof.
  destruct l as [|x l]; [reflexivity|]. intros H.
  destruct (sh_run_join_plain l x [] H) as (w & Hrun & Hhd & Hnil).
  unfold Sh.words, Sh.start. rewrite Hrun.
  unfold Sh.finish, Sh.flush; cbn [Sh.lmode Sh.cur Sh.done].
  rewrite List.app_nil_r in *.
  destruct (rev (x :: l)) as [|z zs] eqn:E; [contradiction|].
  cbn [List.hd List.tl] in *. subst z. rewrite <- E.
  now rewrite List.rev_involutive.
Qed.

(** X9. [mkdir] and [copy] put the paths into the command as they are: a
    path with a space in it reaches the remote shell as two words, so that
    [mkdir] is asked for two directories and [cp] for one argument more. *)
Theorem paths_with_spaces_are_split :
  forall (a b other : string) (recursive : bool),
    plain a = true -> plain b = true -> plain other = true ->
    Sh.words (joined (mkdir_line (a ++ " " ++ b) recursive))
    = Some (["mkdir"] ++ (if recursive then ["-p"] else []) ++ [a; b])%list
    /\ Sh.words (joined (cp_line (a ++ " " ++ b) other))
       = Some ["cp"; a; b; other]
    /\ Sh.words (joined (cp_line other (a ++ " " ++ b)))
       = Some ["cp"; other; a; b].
Proof.
  intros a b other recursive Ha Hb Ho. split; [|split].
  - destruct recursive.
    + change (joined (mkdir_line (a ++ " " ++ b) true))
        with (Py.str_join " " ["mkdir"; "-p"; a; b]).
      apply (sh_words_join_plain ["mkdir"; "-p"; a; b]).
      cbn [forallb]. now rewrite Ha, Hb.
    + change (joined (mkdir_line (a ++ " " ++ b) false))
        with (Py.str_join " " ["mkdir"; a; b]).
      apply (sh_words_join_plain ["mkdir"; a; b]).
      cbn [forallb]. now rewrite Ha, Hb.
  - replace (joined (cp_line (a ++ " " ++ b) other))
      with (Py.str_join " " ["cp"; a; b; other])
      by (cbn; now rewrite !str_app_assoc).
    apply sh_words_join_plain. cbn [forallb]. now rewrite Ha, Hb, Ho.
  - change (joined (cp_line other (a ++ " " ++ b)))
      with (Py.str_join " " ["cp"; other; a; b]).
    apply sh_words_join_plain. cbn [forallb]. now rewrite Ha, Hb, Ho.
Qed.

(** ** Equality is an equivalence *)

Lemma value_eq_refl (v : value PyObj) :
  (forall x, obj_eq x x = true) -> value_eq v v = true.
Proof.
  intros Hrefl. destruct v; cbn; auto.
  - now destruct b.
  - apply Z.eqb_refl.
  - apply String.eqb_refl.
Qed.

Lemma value_eq_sym (u v : value PyObj) :
  (forall x y, obj_eq x y = obj_eq y x) -> value_eq u v = value_eq v u.
Proof.
  intros Hsym. destruct u, v; cbn; auto.
  - now destruct b, b0.
  - apply Z.eqb_sym.
  - apply String.eqb_sym.
Qed.

Lemma value_eq_trans (u v t : value PyObj) :
  (forall x y z, obj_eq x y = true -> obj_eq y z = true -> obj_eq x z = true) ->
  value_eq u v = true -> value_eq v t = true -> value_eq u t = true.
Proof.
  intros Htrans. destruct u, v, t; cbn; intros H1 H2;
    try discriminate; try reflexivity;
    rewrite ?Z.eqb_eq, ?String.eqb_eq, ?Bool.eqb_true_iff in *;
    try (subst; reflexivity); try congruence.
  - destruct b, b0; congruence.
  - eauto.
Qed.

(** X10. Where [==] on the objects held in [config], [gateway] and
    [connect_kwargs] is reflexive, symmetric and transitive, so is [==] on
    hosts: hosts can serve as keys for caching and deduplication. *)
Theorem eq_is_equivalence :
  (forall x, obj_eq x x = true) ->
  (forall x y, obj_eq x y = obj_eq y x) ->
  (forall x y z, obj_eq x y = true -> obj_eq y z = true -> obj_eq x z = true) ->
  (forall a : RemoteHost, __eq__ a (IsRemoteHost a) = true)
  /\ (forall a b : RemoteHost,
         __eq__ a (IsRemoteHost b) = __eq__ b (IsRemoteHost a))
  /\ (forall a b c : RemoteHost,
         __eq__ a (IsRemoteHost b) = true ->
         __eq__ b (IsRemoteHost c) = true ->
         __eq__ a (IsRemoteHost c) = true).
Proof.
  intros Hrefl Hsym Htrans. split; [|split].
  - intros a. rewrite eq_unfold.
    now rewrite !(fun v => value_eq_refl v Hrefl).
  - intros a b. rewrite !eq_unfold.
    repeat (apply (f_equal2 andb); [now apply value_eq_sym|]). reflexivity.
  - intros a b c. rewrite !eq_unfold, !andb_true_iff.
    intros H1 H2. decompose [and] H1. decompose [and] H2.
    repeat split;
      match goal with
      | |- value_eq _ _ = true =>
          eapply (fun u v t => value_eq_trans u v t Htrans); eassumption
      | |- _ => reflexivity
      end.
Qed.

(** ** What each method asks of the connection *)

(** X11. Every method asks of the transport only what is its own:
    [execute], [mkdir] and [copy] one [run], hidden and with [warn=True],
    and no transfer; [write_text_file], [put] and [get] one transfer with
    the arguments they were given, and no [run]; [close] one [close];
    [connect] an [open], followed by at most one keepalive setting;
    [is_connected] nothing.  The calls recorded are the calls made: the
    connection is left in the state the transport reaches by answering
    just these calls, in this order. *)
Theorem methods_make_their_own_calls :
  forall (op : Op) (w : World),
  exists cs : list Call,
    calls (perform op w) = (calls w ++ cs)%list
    /\ _connection (this (perform op w))
       = fold_left (fun c call => replay call c) cs (_connection (this w))
    /\ forallb (expected_call op) cs = true
    /\ match op with
       | OpIsConnected => cs = []
       | OpConnect =>
           cs = [CallOpen]
           \/ exists seconds, cs = [CallOpen; CallSetKeepalive seconds]
       | _ => exists c, cs = [c]
       end.
Proof.
  intros op w. destruct op; cbn [perform].
  - rewrite execute_unfold.
    destruct (conn_run _ _ _ _ _ _) as [[r|e] c'] eqn:E; eexists;
      (split; [reflexivity|]);
      (split; [exact (eq_sym (f_equal snd E))|]);
      (split; [reflexivity | now eexists]).
  - rewrite mkdir_unfold. cbv zeta.
    destruct (conn_run _ _ _ _ _ _) as [[r|e] c'] eqn:E;
      [destruct (Z.eqb (exited r) 0)| ]; eexists;
      (split; [reflexivity|]);
      (split; [exact (eq_sym (f_equal snd E))|]);
      (split; [reflexivity | now eexists]).
  - unfold write_text_file, on_connection.
    destruct (conn_put_stream _ _ _) as [r c'] eqn:E. eexists.
    split; [reflexivity|]. split; [exact (eq_sym (f_equal snd E))|].
    split; [|now eexists]. cbn. now rewrite !String.eqb_refl.
  - unfold connect, bind, self_, on_connection, ret.
    destruct (conn_open _) as [[u|e] c'] eqn:E;
      [|exists [CallOpen]; cbn; rewrite E; repeat split; now left].
    destruct (keepalive (this w)) as [seconds|];
      [|exists [CallOpen]; cbn; rewrite E; repeat split; now left].
    destruct (Py.int_truthy (Some seconds));
      [|exists [CallOpen]; cbn; rewrite E; repeat split; now left].
    cbn. destruct (conn_set_keepalive _ _) as [r c''] eqn:E'.
    exists [CallOpen; CallSetKeepalive seconds]. cbn.
    rewrite <- List.app_assoc, E. cbn. rewrite E'.
    repeat split. right. now exists seconds.
  - rewrite close_unfold.
    destruct (conn_close _) as [[u|e] c'] eqn:E; eexists;
      (split; [reflexivity|]);
      (split; [exact (eq_sym (f_equal snd E))|]);
      (split; [reflexivity | now eexists]).
  - exists []. cbn. now rewrite List.app_nil_r.
  - unfold put, on_connection.
    destruct (conn_put _ _ _) as [r c'] eqn:E. eexists.
    split; [reflexivity|]. split; [exact (eq_sym (f_equal snd E))|].
    split; [|now eexists]. cbn. now rewrite !String.eqb_refl.
  - unfold get, on_connection.
    destruct (conn_get _ _ _) as [r c'] eqn:E. eexists.
    split; [reflexivity|]. split; [exact (eq_sym (f_equal snd E))|].
    split; [|now eexists]. cbn. now rewrite !String.eqb_refl.
  - rewrite copy_unfold, execute_unfold.
    destruct (conn_run _ _ _ _ _ _) as [[r|e] c'] eqn:E; eexists;
      (split; [reflexivity|]);
      (split; [exact (eq_sym (f_equal snd E))|]);
      (split; [reflexivity | now eexists]).
Qed.

(** ** Tokens are split at their spaces *)

Lemma str_join_app (l1 l2 : list string) :
  Py.str_join " " (l1 ++ l2)
  = Py.str_join " " l1
    ++ (match l1, l2 with _ :: _, _ :: _ => " " | _, _ => "" end)
    ++ Py.str_join " " l2.
Proof.
  induction l1 as [|x l1 IH]; [reflexivity|].
  change ((x :: l1) ++ l2)%list with (x :: (l1 ++ l2))%list.
  rewrite !str_join_cons, IH.
  destruct l1 as [|y l1], l2 as [|z l2]; cbn [List.app Py.str_join];
    rewrite ?str_app_assoc, ?str_app_nil_r; reflexivity.
Qed.

Lemma str_join_groups (groups : list (list string)) :
  forallb spaced_words groups = true ->
  Py.str_join " " (map (Py.str_join " ") groups)
  = Py.str_join " " (concat groups).
Proof.
  induction groups as [|g groups IH]; [reflexivity|].
  cbn [forallb map concat]. intros H. apply andb_true_iff in H as [Hg Hgs].
  rewrite str_join_cons, str_join_app, (IH Hgs).
  destruct g as [|x g]; [discriminate Hg|].
  destruct groups as [|[|y g'] groups]; [reflexivity | discriminate Hgs |].
  reflexivity.
Qed.

Lemma forallb_concat {A : Type} (p : A -> bool) (ls : list (list A)) :
  forallb p (concat ls) = forallb (forallb p) ls.
Proof.
  induction ls as [|l ls IH]; [reflexivity|].
  cbn [concat forallb]. now rewrite forallb_app, IH.
Qed.

(** X12. The join puts nothing around a token: when the tokens of a list
    are plain words, several to a token with single spaces between them,
    the shell that reads the joined command finds every word on its own,
    and nothing is left of where one token ended and the next began. *)
Theorem joined_tokens_are_split_at_spaces :
  forall groups : list (list string),
    forallb spaced_words groups = true ->
    Sh.words (joined (CmdList (map (Py.str_join " ") groups)))
    = Some (concat groups).
Proof.
  intros groups H. cbn [joined]. rewrite (str_join_groups groups H).
  apply sh_words_join_plain. rewrite forallb_concat.
  apply forallb_forall. intros g Hin.
  pose proof (proj1 (forallb_forall _ _) H g Hin) as Hg.
  now destruct g.
Qed.

End Host.

(** ** The model at work on the simulated transport *)

(** A host built with the defaults of [__init__], and the same host behind
    a broken network, with a failing teardown, and on a read-only file
    system. *)
Local Abbreviation sim_host :=
  (@default_host unit Sim.conn Sim.transport "example.org").
Local Abbreviation unreachable_host :=
  (with_connection sim_host (Sim.mkConn false false false false None)).
Local Abbreviation stuck_host :=
  (with_connection sim_host (Sim.mkConn true true true false None)).
Local Abbreviation readonly_host :=
  (with_connection sim_host (Sim.mkConn false true false true None)).

(** C1 at the command [exit 7]: the transport runs it, and [execute]
    returns two empty strings and the status 7. *)
Lemma execute_returns_what_ran_witness :
  Sim.run "bash -l  -c 'exit 7'" "." true true None Sim.fresh
  = (Return (mkResult "" "" 7), Sim.mkConn true true false false None)
  /\ fst (execute (CmdStr "exit 7") WdNone None (new_world sim_host))
     = Return ("", "", 7%Z).
Proof.
  split; [reflexivity|].
  exact (execute_returns_what_ran (CmdStr "exit 7") WdNone None
           (new_world sim_host) (Return (mkResult "" "" 7))
           (Sim.mkConn true true false false None) eq_refl).
Defined.

(** The status 0, and the two ways the transport fails to run a command:
    no route to the host, and the time limit. *)
Example execute_exit_0 :
  fst (execute (CmdList ["echo"; "a"; "b"]) (WdStr "/tmp") None
         (new_world sim_host))
  = Return ("a b" ++ String Sh.newline "", "", 0%Z).
Proof. reflexivity. Qed.

Example execute_unreachable :
  fst (execute (CmdStr "exit 7") WdNone None (new_world unreachable_host))
  = Raise (SocketError "No route to host").
Proof. reflexivity. Qed.

Example execute_timeout :
  fst (execute (CmdStr "sleep 10") WdNone (Some 5%Z) (new_world sim_host))
  = Raise (CommandTimedOut 5).
Proof. reflexivity. Qed.

(** C6 at [echo 'a b'] under [bash -l]. *)
Lemma execute_quoting_preserves_single_quote_witness :
  Sh.words (remote_command sim_host "echo 'a b'")
  = Some ["bash"; "-l"; "-c"; "echo 'a b'"]
  /\ Sh.words (Shlex.quote "echo 'a b'") = Some ["echo 'a b'"].
Proof.
  exact (execute_quoting_preserves_single_quote sim_host "bash" ["bash"]
           "echo 'a b'" eq_refl eq_refl eq_refl eq_refl eq_refl).
Defined.

Example quote_it_s :
  Shlex.quote "it's"
  = String "'" ("it" ++ Shlex.quote_escape ++ "s" ++ String "'" "").
Proof. reflexivity. Qed.

Example quote_safe : Shlex.quote "/usr/bin/env" = "/usr/bin/env".
Proof. reflexivity. Qed.

(** C3 as the specification words it fails: on a host that was never
    connected the teardown of the transport has nothing to do and does not
    fail, and [close] returns [True]. *)
Lemma close_unopened_host_returns_true :
  calls (new_world sim_host) = []
  /\ Sim.connected (_connection sim_host) = false
  /\ fst (close (new_world sim_host)) = Return true
  /\ fst (close (new_world sim_host)) <> Return false.
Proof. repeat split; try reflexivity. discriminate. Qed.

Example close_failing_teardown :
  fst (close (new_world stuck_host)) = Return false.
Proof. reflexivity. Qed.

(** C9 on a read-only file system: [cp] exits with status 1, and [copy]
    returns as it does after a successful copy. *)
Lemma copy_discards_result_witness :
  Sim.run "bash -l  -c 'cp a b'" "." true true None
    (Sim.mkConn false true false true None)
  = (Return (mkResult "" "Read-only file system" 1),
     Sim.mkConn true true false true None)
  /\ fst (copy "a" "b" (new_world readonly_host)) = Return tt
  /\ fst (copy "a" "b" (new_world sim_host)) = Return tt
  /\ records (snd (copy "a" "b" (new_world readonly_host))) = [].
Proof.
  split; [reflexivity|].
  pose proof (copy_discards_result "a" "b" (new_world readonly_host)
                (mkResult "" "Read-only file system" 1)
                (Sim.mkConn true true false true None) eq_refl) as [H1 H2].
  split; [exact (f_equal fst H1)|]. split; [reflexivity | exact H2].
Defined.

(** [mkdir] on the same three hosts. *)
Example mkdir_succeeds :
  fst (mkdir "/tmp/x" true true (new_world sim_host)) = Return true.
Proof. reflexivity. Qed.

Example mkdir_readonly :
  mkdir "/tmp/x" true true (new_world readonly_host)
  = (Return false,
     mkWorld (with_connection sim_host (Sim.mkConn true true false true None))
       [CallRun "bash -l  -c 'mkdir -p /tmp/x'" "." true true None]
       [mkLogRecord WARNING
          "Error creating folder /tmp/x. stdout: , stderr: Read-only file system"
          None]).
Proof. reflexivity. Qed.

Example mkdir_unreachable :
  mkdir "/tmp/x" false true (new_world unreachable_host)
  = (Return false,
     mkWorld unreachable_host
       [CallRun "bash -l  -c 'mkdir /tmp/x'" "." true true None]
       [mkLogRecord WARNING "Error creating folder /tmp/x"
          (Some (SocketError "No route to host"))]).
Proof. reflexivity. Qed.

(** Equality looks at the port and not at the connection. *)
Example eq_other_port :
  __eq__ (fun _ _ => true) sim_host
    (IsRemoteHost
       (__init__ "example.org" None (Some 2222%Z) None None None None None
          None None (Some 60%Z) (Some "bash") true))
  = false.
Proof. reflexivity. Qed.

Example eq_other_connection :
  __eq__ (fun _ _ => true) sim_host (IsRemoteHost stuck_host) = true.
Proof. reflexivity. Qed.

(** ** Further runs on the simulated transport *)

Local Abbreviation sh_host :=
  (@__init__ unit Sim.conn Sim.transport "example.org" None None None None
     None None None None None None (Some "/bin/sh") false).

(** X3 on a read-only file system with a failing command, a failing copy
    and a close. *)
Lemma only_mkdir_logs_witness :
  existsb is_mkdir
    [OpConnect; OpExecute (CmdStr "false") WdNone None; OpCopy "a" "b";
     OpWriteTextFile "/tmp/x" "text"; OpClose] = false
  /\ records
       (perform_all
          [OpConnect; OpExecute (CmdStr "false") WdNone None; OpCopy "a" "b";
           OpWriteTextFile "/tmp/x" "text"; OpClose]
          (new_world readonly_host)) = [].
Proof.
  split; [reflexivity|].
  exact (only_mkdir_logs
           [OpConnect; OpExecute (CmdStr "false") WdNone None; OpCopy "a" "b";
            OpWriteTextFile "/tmp/x" "text"; OpClose]
           (new_world readonly_host) eq_refl).
Defined.

(** X5 with the default interval of 60 seconds. *)
Lemma connect_opens_then_sets_keepalive_witness :
  Sim.open Sim.fresh = (Return tt, Sim.mkConn true true false false None)
  /\ connect (new_world sim_host)
     = (Return tt,
        mkWorld
          (with_connection sim_host
             (Sim.mkConn true true false false (Some 60%Z)))
          [CallOpen; CallSetKeepalive 60] []).
Proof.
  split; [reflexivity|].
  exact (connect_opens_then_sets_keepalive (new_world sim_host) (Return tt)
           (Sim.mkConn true true false false None) eq_refl).
Defined.

Example connect_unreachable :
  connect (new_world unreachable_host)
  = (Raise (SocketError "No route to host"),
     mkWorld unreachable_host [CallOpen] []).
Proof. reflexivity. Qed.

(** X6 behind a broken network. *)
Lemma copy_raises_what_run_raises_witness :
  Sim.run "bash -l  -c 'cp a b'" "." true true None
    (Sim.mkConn false false false false None)
  = (Raise (SocketError "No route to host"),
     Sim.mkConn false false false false None)
  /\ fst (copy "a" "b" (new_world unreachable_host))
     = Raise (SocketError "No route to host")
  /\ records (snd (copy "a" "b" (new_world unreachable_host))) = [].
Proof.
  split; [reflexivity|].
  pose proof (copy_raises_what_run_raises "a" "b"
                (new_world unreachable_host)
                (SocketError "No route to host")
                (Sim.mkConn false false false false None) eq_refl) as [H1 H2].
  split; [exact (f_equal fst H1) | exact H2].
Defined.

(** X7 for two commands that differ in a trailing blank. *)
Lemma remote_command_injective_witness :
  "ls" <> "ls "
  /\ remote_command sim_host "ls" <> remote_command sim_host "ls ".
Proof.
  split; [discriminate|].
  apply (remote_command_injective sim_host "ls" "ls "). discriminate.
Defined.

(** X8 without the login flag, for a command full of characters that
    mean something to a shell. *)
Lemma remote_command_read_back_witness :
  Sh.words "/bin/sh" = Some ["/bin/sh"]
  /\ Sh.words (remote_command sh_host "echo $HOME; ls *")
     = Some ["/bin/sh"; "-c"; "echo $HOME; ls *"].
Proof.
  split; [reflexivity|].
  exact (remote_command_read_back sh_host "/bin/sh" ["/bin/sh"]
           "echo $HOME; ls *" eq_refl eq_refl eq_refl).
Defined.

(** X9 for the directory [my dir]. *)
Lemma paths_with_spaces_are_split_witness :
  Sh.words (joined (mkdir_line "my dir" true))
  = Some ["mkdir"; "-p"; "my"; "dir"]
  /\ Sh.words (joined (cp_line "my dir" "/tmp/x"))
     = Some ["cp"; "my"; "dir"; "/tmp/x"]
  /\ Sh.words (joined (cp_line "/tmp/x" "my dir"))
     = Some ["cp"; "/tmp/x"; "my"; "dir"].
Proof.
  exact (paths_with_spaces_are_split "my" "dir" "/tmp/x" true
           eq_refl eq_refl eq_refl).
Defined.

(** X10 where the opaque objects are all equal. *)
Lemma eq_is_equivalence_witness :
  __eq__ (fun _ _ : unit => true) sim_host (IsRemoteHost sim_host) = true
  /\ __eq__ (fun _ _ : unit => true) sim_host (IsRemoteHost sh_host)
     = __eq__ (fun _ _ : unit => true) sh_host (IsRemoteHost sim_host)
  /\ __eq__ (fun _ _ : unit => true) sim_host (IsRemoteHost readonly_host)
     = true.
Proof.
  destruct (eq_is_equivalence (PyObj := unit) (Conn := Sim.conn)
              (fun _ _ => true) (fun _ => eq_refl) (fun _ _ => eq_refl)
              (fun _ _ _ _ _ => eq_refl)) as (Hrefl & Hsym & Htrans).
  split; [apply Hrefl|]. split; [apply Hsym|].
  apply (Htrans sim_host stuck_host readonly_host); reflexivity.
Defined.

(** X12 for the tokens [echo] and [a b]. *)
Lemma joined_tokens_are_split_at_spaces_witness :
  forallb spaced_words [["echo"]; ["a"; "b"]] = true
  /\ Sh.words (joined (CmdList ["echo"; "a b"])) = Some ["echo"; "a"; "b"].
Proof.
  split; [reflexivity|].
  exact (joined_tokens_are_split_at_spaces [["echo"]; ["a"; "b"]] eq_refl).
Defined.

(** X4 on a host with [timeout_execute=5]: asked to sleep ten seconds in
    the working directory [""] with the time limit [0], the transport is
    given the directory [.] and five seconds. *)
Lemma execute_defaults_witness :
  Sim.run "bash -l  -c 'sleep 10'" "." true true (Some 5%Z) Sim.fresh
  = (Raise (CommandTimedOut 5), Sim.mkConn true true false false None)
  /\ fst (execute (CmdStr "sleep 10") (WdStr "") (Some 0%Z)
            (new_world
               (@__init__ unit Sim.conn Sim.transport "example.org" None None
                  None None None None None None (Some 5%Z) (Some 60%Z)
                  (Some "bash") true)))
     = Raise (CommandTimedOut 5).
Proof.
  split; [reflexivity|].
  exact (f_equal fst
           (proj1
              (execute_defaults (CmdStr "sleep 10") (WdStr "") (Some 0%Z)
                 (new_world
                    (@__init__ unit Sim.conn Sim.transport "example.org" None
                       None None None None None None None (Some 5%Z)
                       (Some 60%Z) (Some "bash") true))
                 (Raise (CommandTimedOut 5))
                 (Sim.mkConn true true false false None) eq_refl))).
Defined.
